(** * py2_generate_all.py: generation and registration of the py2 pipeline
      alternatives

    The script [extras/general_pipelines/py2_generate_all.py] walks the
    cross product of two tuples of integers, runs the source generator for
    every combination, appends one table-initializer line per combination to
    [demo_app/py2_pipeline_alternatives.inc] and stages the two generated
    files with git.

    The embedding is shallow.  Python [int] is [Z], [str] is [string], a
    tuple of ints is a [list Z].  The statements of the script act on a
    [World] (working directory, text files, the shell that runs external
    commands) through a small state monad [Py]; the [for] loops are
    [for_in]. *)

From Stdlib Require Import ZArith Ascii DecimalString DecimalZ DecimalPos.
From stdpp Require Import base option list gmap strings.

Local Open Scope Z_scope.

(** ** Python strings *)

Module PyStr.

(** [str(z)] and the [{z}] replacement field of an f-string, for an [int]:
    decimal digits, a leading minus sign for a negative number. *)
Definition of_int (z : Z) : string := NilZero.string_of_int (Z.to_int z).

(** The double quote and the line feed. *)
Definition dquote : ascii := "034"%char.
Definition newline : ascii := "010"%char.

(** The characters [of_int] can produce. *)
Definition is_int_char (c : ascii) : bool :=
  match c with
  | "0" | "1" | "2" | "3" | "4" | "5" | "6" | "7" | "8" | "9" | "-" => true
  | _ => false
  end%char.

(** Every character of [s] satisfies [p]. *)
Fixpoint all_chars (p : ascii -> bool) (s : string) : bool :=
  match s with
  | EmptyString => true
  | String c s' => p c && all_chars p s'
  end.

(** How many characters of [s] equal [c]. *)
Fixpoint count_char (c : ascii) (s : string) : nat :=
  match s with
  | EmptyString => O
  | String c' s' => ((if Ascii.eqb c c' then 1 else 0) + count_char c s')%nat
  end.

(** A seven-bit character: its UTF-8 encoding is the single byte itself. *)
Definition is_ascii7 (c : ascii) : bool :=
  match c with Ascii _ _ _ _ _ _ _ b7 => negb b7 end.

(** Concatenation of a list of strings, as [''.join(l)]. *)
Definition join (l : list string) : string := foldr String.app "" l.

End PyStr.

(** ** The Python run time the script relies on *)

Module Runtime.

(** What the script does, in program order.  [Open] is
    [open(path, 'w', encoding='utf-8')], [System] is [os.system(cmd)],
    [Assign] is the binding of a [str] variable, [Write] is [file.write]. *)
Inductive Event : Type :=
  | Chdir (dir : string)
  | Open (path : string)
  | System (cmd : string)
  | Assign (var value : string)
  | Write (path text : string).

(** The process and its environment.  [fs] holds the text files by path.
    [shell] is the environment's answer to [os.system]: the exit status of a
    command, which may depend on everything that happened before.  What an
    external command does to the files is not tracked; the generator and git
    are taken not to touch the registry file. *)
Record World : Type := mkWorld {
  cwd : string;
  fs : gmap string string;
  shell : list Event -> string -> Z;
  trace : list Event
}.

(** An open text file: the path it was opened at. *)
Record File : Type := mkFile { file_path : string }.

(** Statements are state transformers over the world. *)
Definition Py (A : Type) : Type := World -> A * World.

#[global] Instance Py_ret : MRet Py := λ A (a : A) (w : World), (a, w).
#[global] Instance Py_bind : MBind Py :=
  λ A B (k : A -> Py B) (m : Py A) (w : World), let '(a, w') := m w in k a w'.

(** The world a statement leaves behind. *)
Definition exec {A : Type} (m : Py A) (w : World) : World := snd (m w).

Definition log (e : Event) (w : World) : World :=
  {| cwd := cwd w; fs := fs w; shell := shell w; trace := trace w ++ [e] |}.

(** A relative path, seen from the working directory. *)
Definition resolve (dir path : string) : string := dir +:+ "/" +:+ path.

(** [os.chdir(dir)] *)
Definition os_chdir (dir : string) : Py unit := λ w,
  (tt, log (Chdir dir)
         {| cwd := dir; fs := fs w; shell := shell w; trace := trace w |}).

(** [open(path, 'w', encoding='utf-8')]: the file is created, or cut to
    length zero when it exists. *)
Definition py_open (path : string) : Py File := λ w,
  let p := resolve (cwd w) path in
  (mkFile p,
   log (Open p)
     {| cwd := cwd w; fs := <[p := ""]> (fs w); shell := shell w;
        trace := trace w |}).

(** [file.write(text)]: the text goes to the end of the file; the number of
    characters written is returned.  Python may hold the text in a buffer
    until the file object is flushed, at the latest when the process ends;
    the content recorded here is the one the file has after that. *)
Definition file_write (file : File) (text : string) : Py Z := λ w,
  (Z.of_nat (String.length text),
   log (Write (file_path file) text)
     {| cwd := cwd w;
        fs := alter (λ old, old +:+ text) (file_path file) (fs w);
        shell := shell w; trace := trace w |}).

(** [os.system(cmd)]: the command runs to completion and its exit status is
    returned. *)
Definition os_system (cmd : string) : Py Z := λ w,
  (shell w (trace w) cmd, log (System cmd) w).

(** [var = value] for a string value; the value is handed on. *)
Definition assign (var value : string) : Py string := λ w,
  (value, log (Assign var value) w).

(** [for x in xs: body] *)
Fixpoint for_in {A : Type} (xs : list A) (body : A -> Py unit) : Py unit :=
  match xs with
  | [] => mret tt
  | x :: xs' => body x ;; for_in xs' body
  end.

(** The commands handed to [os.system], oldest first. *)
Definition commands (tr : list Event) : list string :=
  omap (λ e, match e with System cmd => Some cmd | _ => None end) tr.

(** The texts handed to [file.write] for the file at [p], oldest first. *)
Definition written (p : string) (tr : list Event) : list string :=
  omap (λ e, match e with
             | Write q text => if decide (q = p) then Some text else None
             | _ => None
             end) tr.

End Runtime.

(** ** The script *)

Module Py2GenerateAll.
Import PyStr Runtime.

(** One combination: [(warps, tileWidth, tileHeight)]. *)
Definition Variant : Type := Z * Z * Z.

(** [f"./py2_generate_source.py {a} {b} {c}"] *)
Definition generate_cmd (a b c : Z) : string :=
  "./py2_generate_source.py " +:+ of_int a +:+ " " +:+ of_int b +:+ " "
    +:+ of_int c.

(** [f"py2_{a}_{b}_{c}"] *)
Definition name_fmt (a b c : Z) : string :=
  "py2_" +:+ of_int a +:+ "_" +:+ of_int b +:+ "_" +:+ of_int c.

(** The [%] template of the registry line applied to [(a, b)]: an opening
    brace, [a] in double quotes, a comma and a space, [b] in double quotes
    and braces, a closing brace, a comma, a line feed. *)
Definition entry_fmt (a b : string) : string :=
  "{" +:+ String dquote a +:+ String dquote ", {" +:+ String dquote b
    +:+ String dquote "}}," +:+ String newline "".

(** [f"git add ./{name}/general_pipeline_alternative.glsl"] *)
Definition git_add_glsl (name : string) : string :=
  "git add ./" +:+ name +:+ "/general_pipeline_alternative.glsl".

(** [f"git add ./{name}/{name}.cpp"] *)
Definition git_add_cpp (name : string) : string :=
  "git add ./" +:+ name +:+ "/" +:+ name +:+ ".cpp".

(** The path the registry is opened at, relative to the script. *)
Definition registry_rel_path : string :=
  "../../demo_app/py2_pipeline_alternatives.inc".

(** The body of the inner loop. *)
Definition body (file : File) (warps tile_dim : Z) : Py unit :=
  os_system (generate_cmd warps tile_dim tile_dim) ;;
  name ← assign "name" (name_fmt warps tile_dim tile_dim);
  file_write file (entry_fmt name name) ;;
  os_system (git_add_glsl name) ;;
  os_system (git_add_cpp name) ;;
  mret tt.

(** The statements before the loops: the working directory becomes [here],
    the directory of the script ([os.path.split(__file__)[0]]), and the
    registry file is opened for writing. *)
Definition prologue (here : string) : Py File :=
  os_chdir here ;;
  py_open registry_rel_path.

(** The two nested loops. *)
Definition loops (file : File) (warps_choices tile_dim_choices : list Z)
    : Py unit :=
  for_in warps_choices (λ warps,
    for_in tile_dim_choices (λ tile_dim,
      body file warps tile_dim)).

(** The whole script, for any two tuples of choices. *)
Definition script (here : string) (warps_choices tile_dim_choices : list Z)
    : Py unit :=
  py2_pipeline_alternatives_file ← prologue here;
  loops py2_pipeline_alternatives_file warps_choices tile_dim_choices.

(** The combinations the two [for] headers go through, in iteration order. *)
Definition enumerate (warps_choices tile_dim_choices : list Z)
    : list Variant :=
  warps ← warps_choices;
  tile_dim ← tile_dim_choices;
  [(warps, tile_dim, tile_dim)].

(** The tuples the script is shipped with. *)
Definition warps_choices : list Z := [4; 6; 8; 10; 12; 16; 32].
Definition tile_dim_choices : list Z := [8; 10; 12; 14; 16; 20; 24].

(** The script as shipped. *)
Definition main (here : string) : Py unit :=
  script here warps_choices tile_dim_choices.

(** *** What a run is expected to leave behind *)

(** The registry file, as the script reaches it from [here]. *)
Definition registry_path (here : string) : string :=
  resolve here registry_rel_path.

(** The name, the generator command and the registry line of a variant. *)
Definition variant_name (v : Variant) : string :=
  let '(a, b, c) := v in name_fmt a b c.

Definition variant_cmd (v : Variant) : string :=
  let '(a, b, c) := v in generate_cmd a b c.

Definition entry_line (v : Variant) : string :=
  entry_fmt (variant_name v) (variant_name v).

(** The events of one variant, in the order of the loop body: generator,
    name, registry line, the two staging requests. *)
Definition variant_events (p : string) (v : Variant) : list Event :=
  [ System (variant_cmd v);
    Assign "name" (variant_name v);
    Write p (entry_line v);
    System (git_add_glsl (variant_name v));
    System (git_add_cpp (variant_name v)) ].

(** The events of one variant in the order the specification lists the
    steps: name, generator, registry line, the two staging requests. *)
Definition spec_variant_events (p : string) (v : Variant) : list Event :=
  [ Assign "name" (variant_name v);
    System (variant_cmd v);
    Write p (entry_line v);
    System (git_add_glsl (variant_name v));
    System (git_add_cpp (variant_name v)) ].

(** The commands of one variant. *)
Definition variant_commands (v : Variant) : list string :=
  [ variant_cmd v; git_add_glsl (variant_name v);
    git_add_cpp (variant_name v) ].

(** The world after the loop body has run for each of [vs], in order, on
    the file at [p]. *)
Definition after_variants (p : string) (vs : list Variant) (w : World)
    : World :=
  {| cwd := cwd w;
     fs := alter (λ old, old +:+ join (entry_line <$> vs)) p (fs w);
     shell := shell w;
     trace := trace w ++ (vs ≫= variant_events p) |}.

(** The world a fresh process starts in: nothing has happened yet. *)
Definition start (dir : string) (files : gmap string string)
    (sh : list Event -> string -> Z) : World :=
  mkWorld dir files sh [].

(** A shell in which the generator always succeeds, and one in which every
    command fails. *)
Definition sh_ok : list Event -> string -> Z := λ _ _, 0.
Definition sh_fail : list Event -> string -> Z := λ _ _, 256.

End Py2GenerateAll.

(** ** The text of the commands and of the registry lines *)

Module CommandText.
Import PyStr Runtime Py2GenerateAll.

(** A character the shell reads as itself: a lower-case letter, a digit, or
    one of underscore, dot, slash, minus and space (which separates words). *)
Definition is_plain_char (c : ascii) : bool :=
  let n := nat_of_ascii c in
  ((97 <=? n)%nat && (n <=? 122)%nat)
  || ((48 <=? n)%nat && (n <=? 57)%nat)
  || Ascii.eqb c "_" || Ascii.eqb c "." || Ascii.eqb c "/"
  || Ascii.eqb c "-" || Ascii.eqb c " ".

(** The registry line of [entry_fmt] without its line feed. *)
Definition entry_body (a b : string) : string :=
  "{" +:+ String dquote a +:+ String dquote ", {" +:+ String dquote b
    +:+ String dquote "}},".

End CommandText.


(** ** Facts about strings *)

Module PyStrFacts.
Import PyStr.

Lemma all_chars_app p s t :
  all_chars p (s +:+ t) = all_chars p s && all_chars p t.
Proof.
  induction s as [|c s IH]; simpl; [done|].
  by rewrite IH, andb_assoc.
Qed.

Lemma count_char_app c s t :
  count_char c (s +:+ t) = (count_char c s + count_char c t)%nat.
Proof. induction s as [|c' s IH]; simpl; [done|]. rewrite IH. lia. Qed.

Lemma all_chars_impl (p q : ascii -> bool) s :
  (∀ c, p c = true -> q c = true) ->
  all_chars p s = true -> all_chars q s = true.
Proof.
  intros Hpq. induction s as [|c s IH]; simpl; [done|].
  intros [Hc Hs]%andb_true_iff. rewrite (Hpq _ Hc). simpl. auto.
Qed.

Lemma count_char_absent p c s :
  p c = false -> all_chars p s = true -> count_char c s = O.
Proof.
  intros Hc. induction s as [|c' s IH]; simpl; [done|].
  intros [Hc' Hs]%andb_true_iff. rewrite (IH Hs).
  destruct (Ascii.eqb_spec c c') as [->|_]; [congruence|done].
Qed.

Lemma uint_chars d :
  all_chars is_int_char (NilEmpty.string_of_uint d) = true.
Proof. induction d; simpl; auto. Qed.

Lemma of_int_chars z : all_chars is_int_char (of_int z) = true.
Proof.
  unfold of_int.
  destruct (Z.to_int z) as [d|d]; simpl; destruct d; simpl;
    auto using uint_chars.
Qed.

Lemma to_int_proper z :
  Z.to_int z ≠ Decimal.Pos Decimal.Nil ∧ Z.to_int z ≠ Decimal.Neg Decimal.Nil.
Proof.
  destruct z as [|q|q]; simpl; split; try discriminate;
    intros [= H]; by apply Unsigned.to_uint_nonnil in H.
Qed.

Lemma of_int_inj a b : of_int a = of_int b -> a = b.
Proof.
  unfold of_int. intros H. apply DecimalZ.to_int_inj.
  destruct (to_int_proper a) as [Ha1 Ha2], (to_int_proper b) as [Hb1 Hb2].
  pose proof (NilZero.isi _ Ha1 Ha2) as Ea.
  pose proof (NilZero.isi _ Hb1 Hb2) as Eb.
  rewrite H in Ea. congruence.
Qed.

(** Two strings cut at the first occurrence of a separator are equal only
    when both parts are. *)
Lemma app_sep_inj c s1 s2 t1 t2 :
  count_char c s1 = O -> count_char c s2 = O ->
  s1 +:+ String c t1 = s2 +:+ String c t2 -> s1 = s2 ∧ t1 = t2.
Proof.
  revert s2. induction s1 as [|x s1 IH]; intros [|y s2]; simpl.
  - by intros _ _ [= ->].
  - intros _ Hy [= <- _]. by rewrite Ascii.eqb_refl in Hy.
  - intros Hx _ [= -> _]. by rewrite Ascii.eqb_refl in Hx.
  - intros Hx Hy [= -> E].
    destruct (IH s2) as [-> ->]; [lia..|done|done].
Qed.

Lemma of_int_no c z : is_int_char c = false -> count_char c (of_int z) = O.
Proof. intros Hc. eapply count_char_absent; eauto using of_int_chars. Qed.

Lemma str_cons_app c s t : String c s +:+ t = String c (s +:+ t).
Proof. reflexivity. Qed.

Lemma str_app_assoc s t u : (s +:+ t) +:+ u = s +:+ (t +:+ u).
Proof.
  induction s as [|c s IH]; [done|]. by rewrite !str_cons_app, IH.
Qed.

Lemma str_app_nil_r s : s +:+ "" = s.
Proof. induction s as [|c s IH]; [done|]. by rewrite str_cons_app, IH. Qed.

Lemma join_cons s l : join (s :: l) = s +:+ join l.
Proof. done. Qed.

Lemma join_app l1 l2 : join (l1 ++ l2) = join l1 +:+ join l2.
Proof.
  induction l1 as [|s l1 IH]; [done|].
  by rewrite <- app_comm_cons, !join_cons, IH, str_app_assoc.
Qed.

End PyStrFacts.

(** ** Facts about the run time and the script *)

Module ScriptFacts.
Import PyStr PyStrFacts Runtime Py2GenerateAll.

Lemma exec_bind {A B : Type} (m : Py A) (k : A -> Py B) (w : World) :
  exec (m ≫= k) w = exec (k (m w).1) (m w).2.
Proof. unfold exec, mbind, Py_bind. by destruct (m w). Qed.

Lemma exec_ret {A : Type} (a : A) (w : World) : exec (mret a) w = w.
Proof. done. Qed.

Lemma exec_for_in_cons {A : Type} (x : A) xs (f : A -> Py unit) w :
  exec (for_in (x :: xs) f) w = exec (for_in xs f) (exec (f x) w).
Proof. simpl. by rewrite exec_bind. Qed.

Lemma alter_append p a b (m : gmap string string) :
  alter (λ old, old +:+ b) p (alter (λ old, old +:+ a) p m)
  = alter (λ old, old +:+ (a +:+ b)) p m.
Proof.
  rewrite alter_alter_eq. apply alter_ext.
  intros x _. simpl. by rewrite str_app_assoc.
Qed.

Lemma alter_append_nil p (m : gmap string string) :
  alter (λ old, old +:+ "") p m = m.
Proof. apply alter_id. intros x _. by rewrite str_app_nil_r. Qed.

Lemma after_variants_nil p w : after_variants p [] w = w.
Proof.
  unfold after_variants. simpl. rewrite alter_append_nil, app_nil_r.
  by destruct w.
Qed.

Lemma after_variants_app p vs1 vs2 w :
  after_variants p vs2 (after_variants p vs1 w) = after_variants p (vs1 ++ vs2) w.
Proof.
  unfold after_variants. simpl.
  by rewrite alter_append, fmap_app, join_app, bind_app, app_assoc.
Qed.

(** One pass through the loop body. *)
Lemma body_world file a b w :
  exec (body file a b) w = after_variants (file_path file) [(a, b, b)] w.
Proof.
  unfold body. rewrite !exec_bind, exec_ret.
  unfold after_variants, exec, os_system, assign, file_write, log. simpl.
  f_equal.
  - by rewrite str_app_nil_r.
  - by rewrite <- !app_assoc.
Qed.

(** The inner loop, for one value of [warps]. *)
Lemma inner_loop_world file a tc w :
  exec (for_in tc (λ tile_dim, body file a tile_dim)) w
  = after_variants (file_path file) ((λ t, (a, t, t)) <$> tc) w.
Proof.
  revert w. induction tc as [|t tc IH]; intros w.
  - by rewrite after_variants_nil.
  - rewrite exec_for_in_cons, IH, body_world, after_variants_app. done.
Qed.

Lemma enumerate_cons a wc tc :
  enumerate (a :: wc) tc = ((λ t, (a, t, t)) <$> tc) ++ enumerate wc tc.
Proof.
  unfold enumerate. rewrite bind_cons. f_equal.
Qed.

(** The two loops. *)
Lemma loops_world file wc tc w :
  exec (loops file wc tc) w
  = after_variants (file_path file) (enumerate wc tc) w.
Proof.
  unfold loops. revert w. induction wc as [|a wc IH]; intros w.
  - by rewrite after_variants_nil.
  - rewrite exec_for_in_cons, IH, inner_loop_world, after_variants_app.
    by rewrite enumerate_cons.
Qed.

(** The statements before the loops. *)
Lemma prologue_world here w :
  prologue here w
  = (mkFile (registry_path here),
     {| cwd := here; fs := <[registry_path here := ""]> (fs w);
        shell := shell w;
        trace := trace w ++ [Chdir here; Open (registry_path here)] |}).
Proof.
  unfold prologue, mbind, Py_bind, os_chdir, py_open, log, registry_path.
  simpl. by rewrite <- app_assoc.
Qed.

(** The whole run. *)
Lemma script_world here wc tc w :
  exec (script here wc tc) w
  = {| cwd := here;
       fs := <[registry_path here := join (entry_line <$> enumerate wc tc)]>
               (fs w);
       shell := shell w;
       trace := trace w ++ [Chdir here; Open (registry_path here)]
                  ++ (enumerate wc tc ≫= variant_events (registry_path here)) |}.
Proof.
  unfold script. rewrite exec_bind, prologue_world, loops_world.
  unfold after_variants. simpl. f_equal.
  - by rewrite alter_insert_eq.
  - by rewrite <- app_assoc.
Qed.

End ScriptFacts.

(** ** Facts about the enumeration and the trace *)

Module TraceFacts.
Import PyStr PyStrFacts Runtime Py2GenerateAll ScriptFacts.

Lemma enumerate_nil_l tc : enumerate [] tc = [].
Proof. done. Qed.

Lemma enumerate_nil_r wc : enumerate wc [] = [].
Proof.
  induction wc as [|a wc IH]; [done|]. by rewrite enumerate_cons, IH.
Qed.

Lemma enumerate_length wc tc :
  length (enumerate wc tc) = (length wc * length tc)%nat.
Proof.
  induction wc as [|a wc IH]; [done|].
  rewrite enumerate_cons, length_app, length_fmap, IH. simpl. lia.
Qed.

Lemma enumerate_lookup wc tc i j a b :
  wc !! i = Some a -> tc !! j = Some b ->
  enumerate wc tc !! (i * length tc + j)%nat = Some (a, b, b).
Proof.
  revert i. induction wc as [|x wc IH]; intros i Hi Hj; [done|].
  rewrite enumerate_cons. destruct i as [|i]; simpl in Hi.
  - injection Hi as ->. simpl.
    rewrite lookup_app_l by (rewrite length_fmap; by eapply lookup_lt_Some).
    by rewrite list_lookup_fmap, Hj.
  - rewrite lookup_app_r by (rewrite length_fmap; simpl; lia).
    rewrite length_fmap.
    replace (S i * length tc + j - length tc)%nat
      with (i * length tc + j)%nat by (simpl; lia).
    by apply IH.
Qed.

Lemma commands_app tr1 tr2 :
  commands (tr1 ++ tr2) = commands tr1 ++ commands tr2.
Proof. apply omap_app. Qed.

Lemma written_app p tr1 tr2 :
  written p (tr1 ++ tr2) = written p tr1 ++ written p tr2.
Proof. apply omap_app. Qed.

Lemma commands_variants p vs :
  commands (vs ≫= variant_events p) = vs ≫= variant_commands.
Proof.
  induction vs as [|v vs IH]; [done|].
  by rewrite !bind_cons, commands_app, IH.
Qed.

Lemma written_variants p vs :
  written p (vs ≫= variant_events p) = entry_line <$> vs.
Proof.
  induction vs as [|v vs IH]; [done|].
  rewrite bind_cons, written_app, IH, fmap_cons.
  unfold written at 1. simpl. by rewrite decide_True.
Qed.

(** The events of the [k]-th variant sit in the [k]-th block of five. *)
Lemma variant_events_lookup p vs k v r e :
  vs !! k = Some v -> variant_events p v !! r = Some e ->
  (vs ≫= variant_events p) !! (5 * k + r)%nat = Some e.
Proof.
  revert k. induction vs as [|x vs IH]; intros k Hk Hr; [done|].
  rewrite bind_cons. destruct k as [|k]; simpl in Hk.
  - injection Hk as ->. rewrite Nat.mul_0_r, Nat.add_0_l.
    rewrite lookup_app_l; [done|]. by eapply lookup_lt_Some.
  - rewrite lookup_app_r by (simpl; lia).
    replace (5 * S k + r - length (variant_events p x))%nat
      with (5 * k + r)%nat by (simpl; lia).
    by apply IH.
Qed.

Lemma variant_events_length p vs :
  length (vs ≫= variant_events p) = (5 * length vs)%nat.
Proof.
  induction vs as [|x vs IH]; [done|].
  rewrite bind_cons, length_app, IH. simpl. lia.
Qed.

(** Names and registry lines, character by character. *)
Lemma name_fmt_count c a b d :
  is_int_char c = false ->
  count_char c (name_fmt a b d) = count_char c "py2___".
Proof.
  intros Hc. unfold name_fmt.
  rewrite !count_char_app, !(of_int_no c) by done. simpl. lia.
Qed.

Lemma int_char_ascii7 c : is_int_char c = true -> is_ascii7 c = true.
Proof. by destruct c as [[] [] [] [] [] [] [] []]. Qed.

Lemma name_fmt_ascii7 a b d : all_chars is_ascii7 (name_fmt a b d) = true.
Proof.
  unfold name_fmt. rewrite !all_chars_app.
  rewrite !(all_chars_impl _ _ _ int_char_ascii7 (of_int_chars _)). done.
Qed.

(** The registry line spelled out. *)
Lemma entry_fmt_shape a b :
  entry_fmt a b
  = String "{" (String dquote (a +:+ String dquote (String "," (String " "
      (String "{" (String dquote (b +:+ String dquote (String "}" (String "}"
        (String "," (String newline ""))))))))))).
Proof. reflexivity. Qed.

Lemma entry_fmt_newlines a b :
  count_char newline a = O -> count_char newline b = O ->
  count_char newline (entry_fmt a b) = 1%nat.
Proof.
  intros Ha Hb. rewrite entry_fmt_shape.
  repeat (simpl; rewrite ?count_char_app, ?Ha, ?Hb). done.
Qed.

Lemma entry_fmt_ascii7 a b :
  all_chars is_ascii7 a = true -> all_chars is_ascii7 b = true ->
  all_chars is_ascii7 (entry_fmt a b) = true.
Proof.
  intros Ha Hb. rewrite entry_fmt_shape.
  repeat (simpl; rewrite ?all_chars_app, ?Ha, ?Hb). done.
Qed.

Lemma entry_line_newlines v : count_char newline (entry_line v) = 1%nat.
Proof.
  destruct v as [[a b] d].
  apply entry_fmt_newlines; by apply name_fmt_count.
Qed.

Lemma entry_line_ascii7 v : all_chars is_ascii7 (entry_line v) = true.
Proof.
  destruct v as [[a b] d].
  apply entry_fmt_ascii7; apply name_fmt_ascii7.
Qed.

Lemma registry_newlines vs :
  count_char newline (join (entry_line <$> vs)) = length vs.
Proof.
  induction vs as [|v vs IH]; [done|].
  rewrite fmap_cons, join_cons, count_char_app, entry_line_newlines, IH.
  done.
Qed.

Lemma registry_ascii7 vs :
  all_chars is_ascii7 (join (entry_line <$> vs)) = true.
Proof.
  induction vs as [|v vs IH]; [done|].
  by rewrite fmap_cons, join_cons, all_chars_app, entry_line_ascii7, IH.
Qed.

Lemma str_app_cancel_l s t u : s +:+ t = s +:+ u -> t = u.
Proof.
  induction s as [|c s IH]; [done|].
  rewrite !str_cons_app. intros [= H]. auto.
Qed.

Lemma name_fmt_inj a b c a' b' c' :
  name_fmt a b c = name_fmt a' b' c' -> (a, b, c) = (a', b', c').
Proof.
  unfold name_fmt. intros H%str_app_cancel_l.
  apply (app_sep_inj "_"%char) in H as [Ha H]; [|by apply of_int_no..].
  apply (app_sep_inj "_"%char) in H as [Hb Hc]; [|by apply of_int_no..].
  by rewrite (of_int_inj _ _ Ha), (of_int_inj _ _ Hb), (of_int_inj _ _ Hc).
Qed.

End TraceFacts.

(** ** The specification's claims *)

Import PyStr PyStrFacts Runtime Py2GenerateAll ScriptFacts TraceFacts.

(** C1: the two loops go through exactly [m * n] variants, the outer loop over
    [warps_choices] and the inner loop over [tile_dim_choices], both in
    sequence order: the variant at position [i * n + j] is made of the [i]-th
    warp count and the [j]-th tile dimension, which is both its width and its
    height.  For (4, 6) and (8, 10) the sequence is (4,8,8), (4,10,10),
    (6,8,8), (6,10,10).  The generator is run once for each of them, in that
    order.  Nothing here needs the tuples to be non-empty or positive. *)
Theorem enumerate_nested_order (warps_choices tile_dim_choices : list Z) :
  length (enumerate warps_choices tile_dim_choices)
    = (length warps_choices * length tile_dim_choices)%nat
  ∧ (∀ i j warps tile_dim,
       warps_choices !! i = Some warps ->
       tile_dim_choices !! j = Some tile_dim ->
       enumerate warps_choices tile_dim_choices
         !! (i * length tile_dim_choices + j)%nat
       = Some (warps, tile_dim, tile_dim))
  ∧ enumerate [4; 6] [8; 10] = [(4, 8, 8); (4, 10, 10); (6, 8, 8); (6, 10, 10)]
  ∧ (∀ here dir files sh,
       commands
         (trace (exec (script here warps_choices tile_dim_choices)
                   (start dir files sh)))
       = enumerate warps_choices tile_dim_choices ≫= variant_commands).
Proof.
  split; [apply enumerate_length|].
  split; [intros i j a b; apply enumerate_lookup|].
  split; [reflexivity|].
  intros here dir files sh. rewrite script_world. simpl.
  apply commands_variants.
Qed.

(** C2: after a run over tuples of sizes [m] and [n] the registry file holds
    the lines of the enumerated variants, in enumeration order and nothing
    else, whatever the file held before (opening it cut it to length zero).
    Every line is an opening brace, the name in double quotes, a comma, a
    space, the name in double quotes and braces, a closing brace, a comma and
    a line feed, with the same name twice.  The file has [m * n] line feeds,
    one at the end of each line, and only seven-bit characters, so its UTF-8
    bytes are its characters. *)
Theorem registry_holds_one_line_per_variant
    (here : string) (warps_choices tile_dim_choices : list Z)
    (dir : string) (files : gmap string string)
    (sh : list Event -> string -> Z) :
  let vs := enumerate warps_choices tile_dim_choices in
  let w' := exec (script here warps_choices tile_dim_choices)
              (start dir files sh) in
  fs w' !! registry_path here = Some (join (entry_line <$> vs))
  ∧ written (registry_path here) (trace w') = entry_line <$> vs
  ∧ (∀ v, entry_line v
          = String "{" (String dquote (variant_name v +:+ String dquote
              (String "," (String " " (String "{" (String dquote
                (variant_name v +:+ String dquote (String "}" (String "}"
                  (String "," (String newline ""))))))))))))
  ∧ (∀ v, count_char newline (entry_line v) = 1%nat)
  ∧ count_char newline (join (entry_line <$> vs))
      = (length warps_choices * length tile_dim_choices)%nat
  ∧ all_chars is_ascii7 (join (entry_line <$> vs)) = true.
Proof.
  intros vs w'. subst w'. rewrite script_world. simpl.
  split; [by rewrite lookup_insert_eq|].
  split; [apply written_variants|].
  split; [intros v; apply entry_fmt_shape|].
  split; [apply entry_line_newlines|].
  split; [|apply registry_ascii7].
  subst vs. by rewrite registry_newlines, enumerate_length.
Qed.

(** C3: the name is the template [py2_{a}_{b}_{c}] filled with the three
    integers of the variant, and two different triples of integers, positive
    or not, never get the same name. *)
Theorem name_fmt_injective (a b c a' b' c' : Z) :
  (a, b, c) ≠ (a', b', c') -> name_fmt a b c ≠ name_fmt a' b' c'.
Proof. intros Hne Heq. by apply Hne, name_fmt_inj. Qed.

Lemma name_fmt_injective_witness :
  name_fmt 4 8 8 = "py2_4_8_8"
  ∧ variant_name (4, 8, 8) = "py2_4_8_8"
  ∧ name_fmt 4 8 8 ≠ name_fmt 6 8 8.
Proof.
  split; [reflexivity|]. split; [reflexivity|].
  apply (name_fmt_injective 4 8 8 6 8 8). discriminate.
Defined.

(** C4: the exit status of the generator (and of git) is never looked at.  A
    run in a shell with arbitrary exit statuses writes one registry line per
    enumerated variant, in order, and leaves the same directory, the same
    files and the same trace as a run in which every command succeeds; so
    does a run in which every command fails. *)
Theorem entry_written_whatever_the_status
    (here : string) (warps_choices tile_dim_choices : list Z)
    (dir : string) (files : gmap string string)
    (sh : list Event -> string -> Z) :
  let vs := enumerate warps_choices tile_dim_choices in
  let run := λ s, exec (script here warps_choices tile_dim_choices)
                    (start dir files s) in
  written (registry_path here) (trace (run sh)) = entry_line <$> vs
  ∧ length (written (registry_path here) (trace (run sh))) = length vs
  ∧ fs (run sh) !! registry_path here = Some (join (entry_line <$> vs))
  ∧ cwd (run sh) = cwd (run sh_ok)
  ∧ fs (run sh) = fs (run sh_ok)
  ∧ trace (run sh) = trace (run sh_ok)
  ∧ written (registry_path here) (trace (run sh_fail)) = entry_line <$> vs
  ∧ (∀ cmd w, shell w = sh_fail -> (os_system cmd w).1 = 256).
Proof.
  intros vs run. subst run. cbv beta. rewrite !script_world. simpl.
  rewrite !written_variants, length_fmap, lookup_insert_eq.
  repeat split. intros cmd w Hw. unfold os_system. simpl. by rewrite Hw.
Qed.

(** C5: for (4,) and (8,) the run writes the single registry line of
    [py2_4_8_8] and asks git to add, after that line is written,
    [./py2_4_8_8/general_pipeline_alternative.glsl] and then
    [./py2_4_8_8/py2_4_8_8.cpp], the two files of the variant seen from the
    directory of the script; these are its only two staging requests.  The
    exit statuses play no part. *)
Theorem end_to_end_4_8
    (here dir : string) (files : gmap string string)
    (sh : list Event -> string -> Z) :
  let p := registry_path here in
  let line := String "{" (String dquote ("py2_4_8_8" +:+ String dquote
                (String "," (String " " (String "{" (String dquote
                  ("py2_4_8_8" +:+ String dquote (String "}" (String "}"
                    (String "," (String newline ""))))))))))) in
  let w' := exec (script here [4] [8]) (start dir files sh) in
  fs w' !! p = Some line
  ∧ trace w'
    = [ Chdir here; Open p;
        System "./py2_generate_source.py 4 8 8";
        Assign "name" "py2_4_8_8";
        Write p line;
        System "git add ./py2_4_8_8/general_pipeline_alternative.glsl";
        System "git add ./py2_4_8_8/py2_4_8_8.cpp" ]
  ∧ commands (trace w')
    = [ "./py2_generate_source.py 4 8 8";
        "git add ./py2_4_8_8/general_pipeline_alternative.glsl";
        "git add ./py2_4_8_8/py2_4_8_8.cpp" ]
  ∧ written p (trace w') = [line].
Proof.
  intros p line w'. subst w'. rewrite script_world. simpl.
  rewrite lookup_insert_eq. unfold written. simpl. rewrite decide_True by done.
  done.
Qed.

(** C6, as stated, fails on the order inside one variant: the script runs
    the generator first and derives the name after it.  For (4,) and (8,)
    the third event of the run is the generator call and the fourth is the
    binding of [name], so the trace is not the one with the name first. *)
Lemma generator_runs_before_name_is_derived :
  trace (exec (script "/repo/extras/general_pipelines" [4] [8])
           (start "/repo" ∅ sh_ok)) !! 2%nat
    = Some (System "./py2_generate_source.py 4 8 8")
  ∧ trace (exec (script "/repo/extras/general_pipelines" [4] [8])
             (start "/repo" ∅ sh_ok)) !! 3%nat
    = Some (Assign "name" "py2_4_8_8")
  ∧ trace (exec (script "/repo/extras/general_pipelines" [4] [8])
             (start "/repo" ∅ sh_ok))
    ≠ [ Chdir "/repo/extras/general_pipelines";
        Open (registry_path "/repo/extras/general_pipelines") ]
      ++ (enumerate [4] [8]
            ≫= spec_variant_events
                 (registry_path "/repo/extras/general_pipelines")).
Proof.
  rewrite script_world. simpl.
  split; [reflexivity|]. split; [reflexivity|]. discriminate.
Qed.

(** C6, amended: the run handles one variant after the other.  Its trace is
    the change of directory, the opening of the registry, and then one block
    of five events per variant, in enumeration order: generator call, name,
    registry line, staging of the shader, staging of the source.  So the
    generator of variant N+1 (at position 7 + 5N) comes after the registry
    line of variant N (at position 4 + 5N), and nothing else happens in
    between or after. *)
Theorem variants_processed_one_after_the_other
    (here : string) (warps_choices tile_dim_choices : list Z)
    (dir : string) (files : gmap string string)
    (sh : list Event -> string -> Z) :
  let p := registry_path here in
  let vs := enumerate warps_choices tile_dim_choices in
  let tr := trace (exec (script here warps_choices tile_dim_choices)
                     (start dir files sh)) in
  tr = [Chdir here; Open p] ++ (vs ≫= variant_events p)
  ∧ length tr = (2 + 5 * length vs)%nat
  ∧ (∀ k v, vs !! k = Some v ->
       tr !! (2 + 5 * k)%nat = Some (System (variant_cmd v))
       ∧ tr !! (3 + 5 * k)%nat = Some (Assign "name" (variant_name v))
       ∧ tr !! (4 + 5 * k)%nat = Some (Write p (entry_line v))
       ∧ tr !! (5 + 5 * k)%nat = Some (System (git_add_glsl (variant_name v)))
       ∧ tr !! (6 + 5 * k)%nat = Some (System (git_add_cpp (variant_name v))))
  ∧ (∀ k v v', vs !! k = Some v -> vs !! S k = Some v' ->
       tr !! (4 + 5 * k)%nat = Some (Write p (entry_line v))
       ∧ tr !! (7 + 5 * k)%nat = Some (System (variant_cmd v'))).
Proof.
  intros p vs tr. subst tr. rewrite script_world. simpl.
  assert (Hblock : ∀ k v r e, vs !! k = Some v ->
            variant_events p v !! r = Some e ->
            (Chdir here :: Open p :: (vs ≫= variant_events p))
              !! (S (S (5 * k + r))) = Some e).
  { intros k v r e Hk Hr. simpl. by eapply variant_events_lookup. }
  split; [done|].
  split; [by rewrite variant_events_length|].
  split.
  - intros k v Hk.
    pose proof (Hblock k v 0%nat _ Hk eq_refl) as H0.
    pose proof (Hblock k v 1%nat _ Hk eq_refl) as H1.
    pose proof (Hblock k v 2%nat _ Hk eq_refl) as H2.
    pose proof (Hblock k v 3%nat _ Hk eq_refl) as H3.
    pose proof (Hblock k v 4%nat _ Hk eq_refl) as H4.
    replace (S (S (5 * k + 0))) with (2 + 5 * k)%nat in H0 by lia.
    replace (S (S (5 * k + 1))) with (3 + 5 * k)%nat in H1 by lia.
    replace (S (S (5 * k + 2))) with (4 + 5 * k)%nat in H2 by lia.
    replace (S (S (5 * k + 3))) with (5 + 5 * k)%nat in H3 by lia.
    replace (S (S (5 * k + 4))) with (6 + 5 * k)%nat in H4 by lia.
    done.
  - intros k v v' Hk Hk'.
    pose proof (Hblock k v 2%nat _ Hk eq_refl) as H2.
    pose proof (Hblock (S k) v' 0%nat _ Hk' eq_refl) as H0.
    replace (S (S (5 * k + 2))) with (4 + 5 * k)%nat in H2 by lia.
    replace (S (S (5 * S k + 0))) with (7 + 5 * k)%nat in H0 by lia.
    done.
Qed.

(** C7: the registry a run leaves is a function of the two tuples alone.
    Two runs over the same tuples leave the same registry content, whatever
    directory, files and shell each one started with; among them the second
    of two runs in a row, which starts on the files the first one left. *)
Theorem registry_deterministic
    (here : string) (warps_choices tile_dim_choices : list Z)
    (dir1 dir2 : string) (files1 files2 : gmap string string)
    (sh1 sh2 : list Event -> string -> Z) :
  let run := λ d f s, exec (script here warps_choices tile_dim_choices)
                        (start d f s) in
  fs (run dir1 files1 sh1) !! registry_path here
    = fs (run dir2 files2 sh2) !! registry_path here
  ∧ fs (run dir1 files1 sh1) !! registry_path here
    = Some (join (entry_line <$> enumerate warps_choices tile_dim_choices))
  ∧ fs (run dir2 (fs (run dir1 files1 sh1)) sh2) !! registry_path here
    = fs (run dir1 files1 sh1) !! registry_path here.
Proof.
  intros run. subst run. cbv beta. rewrite !script_world. simpl.
  by rewrite !lookup_insert_eq.
Qed.

(** C8: when one of the two tuples is empty the run goes through no variant,
    runs no command at all, and leaves a registry file of length zero; all it
    does is change directory and open the file.  The run is a total function
    of the world it starts in, so it ends. *)
Theorem empty_choices_empty_registry
    (here : string) (warps_choices tile_dim_choices : list Z)
    (dir : string) (files : gmap string string)
    (sh : list Event -> string -> Z) :
  warps_choices = [] ∨ tile_dim_choices = [] ->
  let w' := exec (script here warps_choices tile_dim_choices)
              (start dir files sh) in
  enumerate warps_choices tile_dim_choices = []
  ∧ commands (trace w') = []
  ∧ written (registry_path here) (trace w') = []
  ∧ fs w' !! registry_path here = Some ""
  ∧ trace w' = [Chdir here; Open (registry_path here)].
Proof.
  intros Hempty w'. subst w'. rewrite script_world. simpl.
  assert (enumerate warps_choices tile_dim_choices = []) as ->.
  { destruct Hempty as [-> | ->];
      [apply enumerate_nil_l | apply enumerate_nil_r]. }
  by rewrite lookup_insert_eq.
Qed.

Lemma empty_choices_empty_registry_witness :
  enumerate [4; 6] [] = []
  ∧ commands (trace (exec (script "/repo/extras/general_pipelines" [4; 6] [])
                       (start "/repo" ∅ sh_ok))) = []
  ∧ written (registry_path "/repo/extras/general_pipelines")
      (trace (exec (script "/repo/extras/general_pipelines" [4; 6] [])
                (start "/repo" ∅ sh_ok))) = []
  ∧ fs (exec (script "/repo/extras/general_pipelines" [4; 6] [])
          (start "/repo" ∅ sh_ok))
      !! registry_path "/repo/extras/general_pipelines" = Some ""
  ∧ trace (exec (script "/repo/extras/general_pipelines" [4; 6] [])
             (start "/repo" ∅ sh_ok))
    = [ Chdir "/repo/extras/general_pipelines";
        Open (registry_path "/repo/extras/general_pipelines") ].
Proof.
  apply (empty_choices_empty_registry "/repo/extras/general_pipelines"
           [4; 6] [] "/repo" ∅ sh_ok).
  right. reflexivity.
Defined.

(** C9: the script is shipped with the warp counts 4, 6, 8, 10, 12, 16, 32
    and the tile dimensions 8, 10, 12, 14, 16, 20, 24, seven of each, so a
    run goes through 49 variants, writes 49 registry lines and leaves a
    registry of 49 lines. *)
Theorem shipped_choices_give_49_variants
    (here dir : string) (files : gmap string string)
    (sh : list Event -> string -> Z) :
  warps_choices = [4; 6; 8; 10; 12; 16; 32]
  ∧ tile_dim_choices = [8; 10; 12; 14; 16; 20; 24]
  ∧ length warps_choices = 7%nat
  ∧ length tile_dim_choices = 7%nat
  ∧ length (enumerate warps_choices tile_dim_choices) = 49%nat
  ∧ length (written (registry_path here)
              (trace (exec (main here) (start dir files sh)))) = 49%nat
  ∧ ∃ content,
      fs (exec (main here) (start dir files sh)) !! registry_path here
        = Some content
      ∧ count_char newline content = 49%nat.
Proof.
  do 5 (split; [reflexivity|]).
  unfold main. rewrite script_world. cbn [trace fs start].
  split.
  - rewrite app_nil_l, written_app, written_variants, length_app, length_fmap.
    reflexivity.
  - eexists. split; [apply lookup_insert_eq|].
    by rewrite registry_newlines.
Qed.

(** C10: the registry file is opened, and thereby cut to length zero, before
    the first generator call.  Whatever the file held, after the two
    statements that precede the loops it is empty and no command has run yet;
    the loops start from that world, their first event being the generator
    call of the first variant; and the registry the run leaves holds the new
    lines only, whatever the exit statuses were.  The old content is not kept
    anywhere. *)
Theorem registry_cut_before_first_generation
    (here : string) (warps_choices tile_dim_choices : list Z)
    (dir : string) (files : gmap string string)
    (sh : list Event -> string -> Z) (old : string) :
  let p := registry_path here in
  let w := start dir (<[p := old]> files) sh in
  let vs := enumerate warps_choices tile_dim_choices in
  fs w !! p = Some old
  ∧ fs (prologue here w).2 !! p = Some ""
  ∧ trace (prologue here w).2 = [Chdir here; Open p]
  ∧ commands (trace (prologue here w).2) = []
  ∧ exec (script here warps_choices tile_dim_choices) w
    = exec (loops (prologue here w).1 warps_choices tile_dim_choices)
        (prologue here w).2
  ∧ (∀ v vs', vs = v :: vs' ->
       trace (exec (script here warps_choices tile_dim_choices) w)
       = [Chdir here; Open p; System (variant_cmd v)]
           ++ tail (variant_events p v) ++ (vs' ≫= variant_events p))
  ∧ fs (exec (script here warps_choices tile_dim_choices) w) !! p
    = Some (join (entry_line <$> vs))
  ∧ fs (exec (script here warps_choices tile_dim_choices) w)
    = <[p := join (entry_line <$> vs)]> files.
Proof.
  intros p w vs. subst w.
  split; [cbn [fs start]; by rewrite lookup_insert_eq|].
  split; [rewrite prologue_world; simpl; by rewrite lookup_insert_eq|].
  split; [by rewrite prologue_world|].
  split; [by rewrite prologue_world|].
  split; [unfold script; by rewrite exec_bind|].
  rewrite !script_world. simpl. fold vs.
  split; [by intros v vs' ->|].
  split; [by rewrite lookup_insert_eq|].
  by rewrite insert_insert_eq.
Qed.

(** ** Further facts about the enumeration, the names and the run *)

Module MoreFacts.
Import PyStr PyStrFacts Runtime Py2GenerateAll CommandText ScriptFacts
  TraceFacts.

Lemma elem_of_enumerate wc tc v :
  v ∈ enumerate wc tc ↔ ∃ a b, a ∈ wc ∧ b ∈ tc ∧ v = (a, b, b).
Proof.
  unfold enumerate. rewrite list_elem_of_bind. split.
  - intros (a & Hv & Ha). apply list_elem_of_bind in Hv as (b & Hv & Hb).
    apply list_elem_of_singleton in Hv. eauto.
  - intros (a & b & Ha & Hb & ->). exists a. split; [|done].
    apply list_elem_of_bind. exists b. split; [|done].
    by apply list_elem_of_singleton.
Qed.

Lemma enumerate_app wc1 wc2 tc :
  enumerate (wc1 ++ wc2) tc = enumerate wc1 tc ++ enumerate wc2 tc.
Proof. unfold enumerate. apply bind_app. Qed.

Lemma enumerate_NoDup wc tc :
  NoDup wc -> NoDup tc -> NoDup (enumerate wc tc).
Proof.
  intros Hwc Htc. induction Hwc as [|a wc Ha Hwc IH]; [constructor|].
  rewrite enumerate_cons. apply NoDup_app. split; [|split; [|done]].
  - apply NoDup_fmap_2; [|done]. by intros t t' [= ->].
  - intros v (t & -> & _)%list_elem_of_fmap
      (a' & b' & Ha' & _ & [= -> _])%elem_of_enumerate.
    done.
Qed.

#[export] Instance variant_name_inj : Inj (=) (=) variant_name.
Proof. intros [[a b] c] [[a' b'] c'] H. by apply name_fmt_inj. Qed.

Lemma entry_fmt_body a b : entry_fmt a b = entry_body a b +:+ String newline "".
Proof. unfold entry_fmt, entry_body. by rewrite !str_app_assoc. Qed.

Lemma entry_body_shape a b :
  entry_body a b
  = String "{" (String dquote (a +:+ String dquote (String "," (String " "
      (String "{" (String dquote (b +:+ String dquote "}},"))))))).
Proof. reflexivity. Qed.

Lemma entry_body_newlines a b :
  count_char newline a = O -> count_char newline b = O ->
  count_char newline (entry_body a b) = O.
Proof.
  intros Ha Hb. rewrite entry_body_shape.
  repeat (simpl; rewrite ?count_char_app, ?Ha, ?Hb). done.
Qed.

Lemma entry_body_inj a a' :
  count_char dquote a = O -> count_char dquote a' = O ->
  entry_body a a = entry_body a' a' -> a = a'.
Proof.
  intros Ha Ha'. rewrite !entry_body_shape. intros [= H].
  by apply (app_sep_inj dquote) in H as [-> _].
Qed.

Lemma variant_name_count c v :
  is_int_char c = false ->
  count_char c (variant_name v) = count_char c "py2___".
Proof. destruct v as [[a b] d]. apply name_fmt_count. Qed.

Lemma entry_line_cut v t :
  entry_line v +:+ t
  = entry_body (variant_name v) (variant_name v) +:+ String newline t.
Proof.
  unfold entry_line. by rewrite entry_fmt_body, str_app_assoc.
Qed.

Lemma entry_line_inj v v' : entry_line v = entry_line v' -> v = v'.
Proof.
  intros H.
  assert (entry_line v +:+ "" = entry_line v' +:+ "") as H' by by rewrite H.
  rewrite !entry_line_cut in H'.
  apply (app_sep_inj newline) in H' as [H' _];
    [|by apply entry_body_newlines; apply variant_name_count..].
  apply entry_body_inj in H'; [|by apply variant_name_count..].
  by apply (inj variant_name).
Qed.


Lemma generate_cmd_inj a b c a' b' c' :
  generate_cmd a b c = generate_cmd a' b' c' -> (a, b, c) = (a', b', c').
Proof.
  unfold generate_cmd. intros H%str_app_cancel_l.
  apply (app_sep_inj " "%char) in H as [Ha H]; [|by apply of_int_no..].
  apply (app_sep_inj " "%char) in H as [Hb Hc]; [|by apply of_int_no..].
  by rewrite (of_int_inj _ _ Ha), (of_int_inj _ _ Hb), (of_int_inj _ _ Hc).
Qed.

#[export] Instance entry_line_inj' : Inj (=) (=) entry_line.
Proof. intros v v'. apply entry_line_inj. Qed.

#[export] Instance variant_cmd_inj : Inj (=) (=) variant_cmd.
Proof. intros [[a b] c] [[a' b'] c']. apply generate_cmd_inj. Qed.

Lemma int_char_plain c : is_int_char c = true -> is_plain_char c = true.
Proof. by destruct c as [[] [] [] [] [] [] [] []]. Qed.

Lemma of_int_plain z : all_chars is_plain_char (of_int z) = true.
Proof. exact (all_chars_impl _ _ _ int_char_plain (of_int_chars z)). Qed.

Lemma name_fmt_plain a b c : all_chars is_plain_char (name_fmt a b c) = true.
Proof.
  unfold name_fmt. by rewrite !all_chars_app, !of_int_plain.
Qed.


End MoreFacts.

(** ** Further properties of the script *)

Import CommandText MoreFacts.


(** X2: when neither tuple repeats a value, no variant is enumerated twice,
    and the names, the registry lines and the generator commands of the run
    are pairwise different. *)
Theorem distinct_choices_distinct_entries
    (warps_choices tile_dim_choices : list Z) :
  NoDup warps_choices -> NoDup tile_dim_choices ->
  NoDup (enumerate warps_choices tile_dim_choices)
  ∧ NoDup (variant_name <$> enumerate warps_choices tile_dim_choices)
  ∧ NoDup (entry_line <$> enumerate warps_choices tile_dim_choices)
  ∧ NoDup (variant_cmd <$> enumerate warps_choices tile_dim_choices).
Proof.
  intros Hwc Htc.
  pose proof (enumerate_NoDup _ _ Hwc Htc) as Hvs.
  split; [exact Hvs|].
  split; [apply NoDup_fmap_2; [apply _|exact Hvs]|].
  split; apply NoDup_fmap_2; first [apply _|exact Hvs].
Qed.

Lemma distinct_choices_distinct_entries_witness :
  NoDup (enumerate warps_choices tile_dim_choices)
  ∧ NoDup (variant_name <$> enumerate warps_choices tile_dim_choices)
  ∧ NoDup (entry_line <$> enumerate warps_choices tile_dim_choices)
  ∧ NoDup (variant_cmd <$> enumerate warps_choices tile_dim_choices).
Proof.
  apply (distinct_choices_distinct_entries warps_choices tile_dim_choices);
    apply (bool_decide_unpack _); vm_compute; reflexivity.
Defined.





(** X5: the generator command names its variant: two different triples of
    integers never give the same command line. *)
Theorem generate_cmd_injective (a b c a' b' c' : Z) :
  (a, b, c) ≠ (a', b', c') -> generate_cmd a b c ≠ generate_cmd a' b' c'.
Proof. intros Hne Heq. by apply Hne, generate_cmd_inj. Qed.

Lemma generate_cmd_injective_witness :
  generate_cmd 4 8 8 = "./py2_generate_source.py 4 8 8"
  ∧ generate_cmd 4 8 8 ≠ generate_cmd 4 10 10.
Proof.
  split; [reflexivity|].
  apply (generate_cmd_injective 4 8 8 4 10 10). discriminate.
Defined.

Lemma variant_name_plain v : all_chars is_plain_char (variant_name v) = true.
Proof. destruct v as [[a b] c]. apply name_fmt_plain. Qed.

Lemma variant_commands_plain v :
  Forall (λ cmd, all_chars is_plain_char cmd = true) (variant_commands v).
Proof.
  pose proof (variant_name_plain v) as Hn.
  destruct v as [[a b] c]. repeat constructor.
  - unfold variant_cmd, generate_cmd.
    by rewrite !all_chars_app, !of_int_plain.
  - unfold git_add_glsl. by rewrite !all_chars_app, Hn.
  - unfold git_add_cpp. by rewrite !all_chars_app, Hn.
Qed.

(** X6: a name holds no double quote and no backslash, so a registry line
    has exactly four double quotes, those of its two string literals, and
    nothing in it needs escaping. *)
Theorem entry_line_has_two_plain_literals (v : Variant) :
  count_char dquote (variant_name v) = 0%nat
  ∧ count_char "092"%char (variant_name v) = 0%nat
  ∧ count_char dquote (entry_line v) = 4%nat
  ∧ count_char "092"%char (entry_line v) = 0%nat.
Proof.
  pose proof (variant_name_count dquote v eq_refl) as Hq.
  pose proof (variant_name_count "092"%char v eq_refl) as Hb.
  simpl in Hq, Hb. unfold entry_line. rewrite entry_fmt_shape.
  repeat split; try done;
    repeat (simpl; rewrite ?count_char_app, ?Hq, ?Hb); done.
Qed.

(** X7: every command the run hands to the shell is made of lower-case
    letters, digits, underscores, dots, slashes, minus signs and spaces only,
    whatever the integers are: no quote, no wildcard, no separator or
    redirection the shell would act on.  The generator command has three
    spaces, hence three arguments; each staging command has two spaces and a
    path with two slashes. *)
Theorem commands_are_plain_words
    (here : string) (warps_choices tile_dim_choices : list Z)
    (dir : string) (files : gmap string string)
    (sh : list Event -> string -> Z) :
  Forall (λ cmd, all_chars is_plain_char cmd = true)
    (commands (trace (exec (script here warps_choices tile_dim_choices)
                        (start dir files sh))))
  ∧ (∀ v, count_char " " (variant_cmd v) = 3%nat
        ∧ count_char " " (git_add_glsl (variant_name v)) = 2%nat
        ∧ count_char " " (git_add_cpp (variant_name v)) = 2%nat
        ∧ count_char "/" (git_add_glsl (variant_name v)) = 2%nat
        ∧ count_char "/" (git_add_cpp (variant_name v)) = 2%nat).
Proof.
  split.
  - rewrite script_world. simpl. rewrite commands_variants.
    apply Forall_forall. intros cmd (v & Hcmd & _)%list_elem_of_bind.
    revert cmd Hcmd. apply Forall_forall, variant_commands_plain.
  - intros v.
    pose proof (variant_name_count " " v eq_refl) as Hs.
    pose proof (variant_name_count "/" v eq_refl) as Hl.
    simpl in Hs, Hl. destruct v as [[a b] c].
    unfold variant_cmd, generate_cmd, git_add_glsl, git_add_cpp.
    rewrite !count_char_app, !(of_int_no " "), ?Hs, ?Hl by done.
    done.
Qed.

(** X8: the loops over a tuple of warp counts cut in two do what the loops
    over the first part followed by the loops over the second part do; the
    enumeration and the registry of the whole are those of the parts, one
    after the other. *)
Theorem loops_split
    (file : File) (here : string) (wc1 wc2 tile_dim_choices : list Z)
    (w : World) :
  exec (loops file (wc1 ++ wc2) tile_dim_choices) w
  = exec (loops file wc2 tile_dim_choices)
      (exec (loops file wc1 tile_dim_choices) w)
  ∧ enumerate (wc1 ++ wc2) tile_dim_choices
    = enumerate wc1 tile_dim_choices ++ enumerate wc2 tile_dim_choices
  ∧ fs (exec (script here (wc1 ++ wc2) tile_dim_choices) w)
      !! registry_path here
    = Some (join (entry_line <$> enumerate wc1 tile_dim_choices)
            +:+ join (entry_line <$> enumerate wc2 tile_dim_choices)).
Proof.
  split; [|split].
  - by rewrite !loops_world, after_variants_app, enumerate_app.
  - apply enumerate_app.
  - rewrite script_world. simpl.
    by rewrite lookup_insert_eq, enumerate_app, fmap_app, join_app.
Qed.

(** X9: the loops only add to the registry file: whatever the open file
    holds when they start is still there afterwards, followed by the lines
    of the enumerated variants. *)
Theorem loops_append_to_the_file
    (file : File) (warps_choices tile_dim_choices : list Z) (w : World)
    (content : string) :
  fs w !! file_path file = Some content ->
  fs (exec (loops file warps_choices tile_dim_choices) w) !! file_path file
  = Some (content
          +:+ join (entry_line <$> enumerate warps_choices tile_dim_choices)).
Proof.
  intros Hc. rewrite loops_world. unfold after_variants. simpl.
  by rewrite lookup_alter_eq, Hc.
Qed.

Lemma loops_append_to_the_file_witness :
  fs (exec (loops (mkFile "/repo/demo_app/py2_pipeline_alternatives.inc")
              [4] [8])
        (start "/repo"
           (<["/repo/demo_app/py2_pipeline_alternatives.inc" := "// kept"]> ∅)
           sh_ok))
    !! "/repo/demo_app/py2_pipeline_alternatives.inc"
  = Some ("// kept" +:+ join (entry_line <$> enumerate [4] [8])).
Proof.
  apply (loops_append_to_the_file
           (mkFile "/repo/demo_app/py2_pipeline_alternatives.inc") [4] [8]
           (start "/repo"
              (<["/repo/demo_app/py2_pipeline_alternatives.inc" := "// kept"]>
                 ∅)
              sh_ok)
           "// kept").
  vm_compute. reflexivity.
Defined.
